(** * Std_Types.h: the AUTOSAR standard types header

    [src/bswlib/Platform/Std_Types.h] holds no function: it is a sequence of
    preprocessor directives and type declarations.  It is embedded here as
    what it is for a compiler, a transformer of the translation unit's
    environment (the macro table and the typedef table), written directive by
    directive in the order of the source.  The constants and types it
    provides are then read out of the environment it leaves behind. *)

From stdpp Require Import gmap strings list fin_maps.

Local Open Scope Z_scope.

(** ** C types, as far as the header's declarations go *)

#[warnings="-register-all"] Inductive ctype : Type :=
  | Tuint (bits : Z)                                 (* unsigned integer, exact width *)
  | Tuchar                                           (* [unsigned char] *)
  | Tnamed (name : string)                           (* a typedef name *)
  | Tconst (t : ctype)                               (* [const t] *)
  | Tpointer (t : ctype)                             (* [t *] *)
  | Tstruct (members : list (string * ctype))        (* [struct { ... }] *)
  | Tfunction (ret : ctype) (params : list (string * ctype)).

(** A typedef name stands for the type it was declared with, so a declared
    type is stored with its typedef names replaced.  A name that was never
    declared makes the declaration ill-formed. *)
Definition resolve_members (f : ctype → option ctype) :
    list (string * ctype) → option (list (string * ctype)) :=
  fix go ms :=
    match ms with
    | [] => Some []
    | (x, t) :: ms' =>
        match f t, go ms' with
        | Some t', Some ms'' => Some ((x, t') :: ms'')
        | _, _ => None
        end
    end.

Fixpoint resolve (td : gmap string ctype) (t : ctype) : option ctype :=
  match t with
  | Tuint w => Some (Tuint w)
  | Tuchar => Some Tuchar
  | Tnamed x => td !! x
  | Tconst t' => Tconst <$> resolve td t'
  | Tpointer t' => Tpointer <$> resolve td t'
  | Tstruct ms => Tstruct <$> resolve_members (resolve td) ms
  | Tfunction r ps =>
      match resolve td r, resolve_members (resolve td) ps with
      | Some r', Some ps' => Some (Tfunction r' ps')
      | _, _ => None
      end
  end.

(** Conversion of an integer value to a type: for an unsigned type of width
    [w] the value is reduced modulo [2^w]; the header's other types hold no
    integer. *)
Definition convert (t : ctype) (z : Z) : option Z :=
  match t with
  | Tuint w => Some (z mod 2 ^ w)
  | _ => None
  end.

(** [z] is a value of type [t] when conversion to [t] leaves it as it is. *)
Definition representable (t : ctype) (z : Z) : Prop := convert t z = Some z.

(** The largest value of an unsigned type. *)
Definition max_value (t : ctype) : option Z :=
  match t with
  | Tuint w => Some (2 ^ w - 1)
  | _ => None
  end.

(** ** The preprocessor's view: macro bodies and the environment *)

Inductive suffix : Type := NoSuffix | SuffixU.

(** The replacement lists that occur in the header. *)
Inductive body : Type :=
  | Empty                                  (* [#define X] *)
  | Int (n : Z) (sfx : suffix)             (* [30u], [0x0306] *)
  | Name (x : string)                      (* another identifier *)
  | Paren (b : body).                      (* [( ... )] *)

Record env : Type := Env {
  macros : gmap string body;
  typedefs : gmap string ctype
}.

Definition empty_env : env := Env ∅ ∅.

(** A directive or declaration either extends the environment or is
    rejected. *)
Definition directive : Type := env → option env.

(** [#define x b] *)
Definition define (x : string) (b : body) : directive :=
  λ s, Some (Env (<[x := b]> (macros s)) (typedefs s)).

(** [typedef t x;] *)
Definition typedef (t : ctype) (x : string) : directive :=
  λ s, t' ← resolve (typedefs s) t; Some (Env (macros s) (<[x := t']> (typedefs s))).

(** Directives in sequence. *)
Fixpoint block (ds : list directive) : directive :=
  λ s, match ds with
       | [] => Some s
       | d :: ds' => d s ≫= block ds'
       end.

(** [#ifndef x ... #endif] *)
Definition ifndef (x : string) (ds : list directive) : directive :=
  λ s, match macros s !! x with
       | None => block ds s
       | Some _ => Some s
       end.

(** The value of an object-like macro used as an integer constant: its body
    is rescanned, a macro name is never replaced again inside its own
    expansion, and parentheses do not change the value.  The fuel is the
    number of macros still available for replacement. *)
Fixpoint atom (b : body) : body :=
  match b with
  | Paren b' => atom b'
  | _ => b
  end.

Fixpoint expand (fuel : nat) (m : gmap string body) (b : body) : option Z :=
  match atom b with
  | Int n _ => Some n
  | Name x =>
      match fuel with
      | O => None
      | S fuel' => m !! x ≫= expand fuel' (delete x m)
      end
  | _ => None
  end.

Definition constant (s : env) (x : string) : option Z :=
  expand (size (macros s)) (macros s) (Name x).

(** ** Objects of structure type *)

(** A structure object holds one value per member, in declaration order. *)
Definition object : Type := list (string * Z).

(** Brace initialisation [{z1, ..., zn}]: each initialiser is converted to
    the type of the member it initialises, members without an initialiser
    are zero, and more initialisers than members are rejected. *)
Fixpoint initialise (ms : list (string * ctype)) (zs : list Z) : option object :=
  match ms with
  | [] => match zs with [] => Some [] | _ :: _ => None end
  | (x, t) :: ms' =>
      v ← convert t (hd 0 zs);
      o ← initialise ms' (tl zs);
      Some ((x, v) :: o)
  end.

Definition construct (s : env) (tname : string) (zs : list Z) : option object :=
  t ← typedefs s !! tname;
  match t with
  | Tstruct ms => initialise ms zs
  | _ => None
  end.

(** Member access [o.x]. *)
Fixpoint member (o : object) (x : string) : option Z :=
  match o with
  | [] => None
  | (y, v) :: o' => if String.eqb x y then Some v else member o' x
  end.

(** ** The included headers *)

(** Modelled from the spec: [Platform_Types.h] is not part of the sources.
    The spec fixes what [Std_Types.h] takes from it: [uint8] is an 8-bit
    and [uint16] a 16-bit unsigned integer; [uint32], the type of the
    callback's buffer length, is the 32-bit unsigned integer its name says. *)
Definition Platform_Types_h : directive :=
  block
    [ typedef (Tuint 8) "uint8";
      typedef (Tuint 16) "uint16";
      typedef (Tuint 32) "uint32" ].

(** Modelled from the spec: [Compiler.h] is not part of the sources either.
    The spec takes nothing from it and no declaration of [Std_Types.h] names
    anything it could provide, so it is included for no effect. *)
Definition Compiler_h : directive := block [].

(** ** The header *)

Definition Std_Types_h : directive :=
  ifndef "STD_TYPES_H"
    [ define "STD_TYPES_H" Empty;

      Platform_Types_h;
      Compiler_h;

      define "STD_TYPES_VENDOR_ID" (Paren (Int 30 SuffixU));
      define "STD_TYPES_MODULE_ID" (Paren (Int 197 SuffixU));

      define "STD_VENDOR_ID" (Name "STD_TYPES_VENDOR_ID");
      define "STD_MODULE_ID" (Name "STD_TYPES_MODULE_ID");

      define "COMMONASR__COMMON_IMPL_STDTYPES_VERSION" (Int 0x0306 NoSuffix);
      define "COMMONASR__COMMON_IMPL_STDTYPES_RELEASE_VERSION" (Int 0x00 NoSuffix);

      define "STD_TYPES_AR_RELEASE_MAJOR_VERSION" (Paren (Int 4 SuffixU));
      define "STD_TYPES_AR_RELEASE_MINOR_VERSION" (Paren (Int 7 SuffixU));
      define "STD_TYPES_AR_RELEASE_REVISION_VERSION" (Paren (Int 0 SuffixU));

      define "STD_AR_RELEASE_MAJOR_VERSION" (Name "STD_TYPES_AR_RELEASE_MAJOR_VERSION");
      define "STD_AR_RELEASE_MINOR_VERSION" (Name "STD_TYPES_AR_RELEASE_MINOR_VERSION");
      define "STD_AR_RELEASE_REVISION_VERSION" (Name "STD_TYPES_AR_RELEASE_REVISION_VERSION");

      define "STD_TYPES_SW_MAJOR_VERSION" (Paren (Int 3 SuffixU));
      define "STD_TYPES_SW_MINOR_VERSION" (Paren (Int 6 SuffixU));
      define "STD_TYPES_SW_PATCH_VERSION" (Paren (Int 0 SuffixU));

      define "STD_SW_MAJOR_VERSION" (Name "STD_TYPES_SW_MAJOR_VERSION");
      define "STD_SW_MINOR_VERSION" (Name "STD_TYPES_SW_MINOR_VERSION");
      define "STD_SW_PATCH_VERSION" (Name "STD_TYPES_SW_PATCH_VERSION");

      define "STD_HIGH" (Int 1 SuffixU);
      define "STD_LOW" (Int 0 SuffixU);

      define "STD_ACTIVE" (Int 1 SuffixU);
      define "STD_IDLE" (Int 0 SuffixU);

      define "STD_ON" (Int 1 SuffixU);
      define "STD_OFF" (Int 0 SuffixU);

      ifndef "STATUSTYPEDEFINED"
        [ define "STATUSTYPEDEFINED" Empty;
          define "E_OK" (Int 0 SuffixU);
          typedef Tuchar "StatusType" ];

      define "E_NOT_OK" (Int 1 SuffixU);

      typedef (Tnamed "uint8") "Std_ReturnType";

      typedef
        (Tstruct
           [ ("vendorID", Tnamed "uint16");
             ("moduleID", Tnamed "uint16");
             ("sw_major_version", Tnamed "uint8");
             ("sw_minor_version", Tnamed "uint8");
             ("sw_patch_version", Tnamed "uint8") ])
        "Std_VersionInfoType";

      typedef (Tnamed "uint8") "Std_TransformerErrorCode";

      typedef (Tnamed "uint8") "Std_TransformerClass";
      define "STD_TRANSFORMER_UNSPECIFIED" (Int 0 SuffixU);
      define "STD_TRANSFORMER_SERIALIZER" (Int 1 SuffixU);
      define "STD_TRANSFORMER_SAFETY" (Int 2 SuffixU);
      define "STD_TRANSFORMER_SECURITY" (Int 3 SuffixU);
      define "STD_TRANSFORMER_CUSTOM" (Int 0xFF SuffixU);

      typedef (Tnamed "uint8") "Std_MessageTypeType";
      define "STD_MESSAGETYPE_REQUEST" (Int 0 SuffixU);
      define "STD_MESSAGETYPE_RESPONSE" (Int 1 SuffixU);

      typedef (Tnamed "uint8") "Std_MessageResultType";
      define "STD_MESSAGERESULT_OK" (Int 0 SuffixU);
      define "STD_MESSAGERESULT_ERROR" (Int 1 SuffixU);

      typedef
        (Tstruct
           [ ("errorCode", Tnamed "Std_TransformerErrorCode");
             ("transformerClass", Tnamed "Std_TransformerClass") ])
        "Std_TransformerError";

      typedef
        (Tpointer
           (Tfunction (Tnamed "Std_ReturnType")
              [ ("buffer", Tpointer (Tconst (Tnamed "uint8")));
                ("bufferLength", Tnamed "uint32");
                ("messageType", Tpointer (Tnamed "Std_MessageTypeType"));
                ("messageResult", Tpointer (Tnamed "Std_MessageResultType")) ]))
        "Std_ExtractProtocolHeaderFieldsType" ].

(** ** The header on top of what came before

    [overlay s pre] is the environment [s] laid over an earlier one: the
    entries of [s] win, all others are those of [pre]. *)
Definition overlay (s pre : env) : env :=
  Env (macros s ∪ macros pre) (typedefs s ∪ typedefs pre).

(** A guard of the header is harmless for [pre] at [s] when the earlier
    environment has not defined it, or [s] has it as well: then [#ifndef]
    takes the same branch with and without [pre] underneath. *)
Definition guarded (pre : env) (G : list string) (s : env) : Prop :=
  ∀ g, g ∈ G → macros pre !! g = None ∨ is_Some (macros s !! g).

Definition frames (pre : env) (G : list string) (d : directive) : Prop :=
  ∀ s s', guarded pre G s → d s = Some s' →
    d (overlay s pre) = Some (overlay s' pre) ∧ guarded pre G s'.

(** The two guards of the header. *)
Definition guards : list string := ["STD_TYPES_H"; "STATUSTYPEDEFINED"].

(** Of all that an earlier header may have left behind, the header only
    looks at its two guards.  [seed o] is the least environment that has
    [STATUSTYPEDEFINED] as the earlier environment has it, and [included o]
    is what the header makes of it. *)
Definition seed (o : option body) : env :=
  match o with
  | Some b => Env {[ "STATUSTYPEDEFINED" := b ]} ∅
  | None => empty_env
  end.

Definition included (o : option body) : env :=
  default empty_env (Std_Types_h (seed o)).

(** ** The names the header declares

    The macro names of the [#define] lines and the type names of the
    [typedef] declarations, those of [Platform_Types.h] included, in the
    order of the source. *)
Definition Std_Types_macros : list string :=
  [ "STD_TYPES_H";
    "STD_TYPES_VENDOR_ID"; "STD_TYPES_MODULE_ID";
    "STD_VENDOR_ID"; "STD_MODULE_ID";
    "COMMONASR__COMMON_IMPL_STDTYPES_VERSION";
    "COMMONASR__COMMON_IMPL_STDTYPES_RELEASE_VERSION";
    "STD_TYPES_AR_RELEASE_MAJOR_VERSION"; "STD_TYPES_AR_RELEASE_MINOR_VERSION";
    "STD_TYPES_AR_RELEASE_REVISION_VERSION";
    "STD_AR_RELEASE_MAJOR_VERSION"; "STD_AR_RELEASE_MINOR_VERSION";
    "STD_AR_RELEASE_REVISION_VERSION";
    "STD_TYPES_SW_MAJOR_VERSION"; "STD_TYPES_SW_MINOR_VERSION";
    "STD_TYPES_SW_PATCH_VERSION";
    "STD_SW_MAJOR_VERSION"; "STD_SW_MINOR_VERSION"; "STD_SW_PATCH_VERSION";
    "STD_HIGH"; "STD_LOW"; "STD_ACTIVE"; "STD_IDLE"; "STD_ON"; "STD_OFF";
    "STATUSTYPEDEFINED"; "E_OK"; "E_NOT_OK";
    "STD_TRANSFORMER_UNSPECIFIED"; "STD_TRANSFORMER_SERIALIZER";
    "STD_TRANSFORMER_SAFETY"; "STD_TRANSFORMER_SECURITY";
    "STD_TRANSFORMER_CUSTOM";
    "STD_MESSAGETYPE_REQUEST"; "STD_MESSAGETYPE_RESPONSE";
    "STD_MESSAGERESULT_OK"; "STD_MESSAGERESULT_ERROR" ].

Definition Std_Types_typedefs : list string :=
  [ "uint8"; "uint16"; "uint32";
    "StatusType"; "Std_ReturnType"; "Std_VersionInfoType";
    "Std_TransformerErrorCode"; "Std_TransformerClass";
    "Std_MessageTypeType"; "Std_MessageResultType";
    "Std_TransformerError"; "Std_ExtractProtocolHeaderFieldsType" ].

(** An earlier environment for the examples: what a header of an OSEK
    operating system leaves when it has claimed [STATUSTYPEDEFINED] and
    declared [E_OK] and [StatusType] itself. *)
Definition os_env : env :=
  Env {[ "STATUSTYPEDEFINED" := Empty; "E_OK" := Int 0 NoSuffix ]}
      {[ "StatusType" := Tuchar ]}.

(** ** Induction on C types, through member and parameter lists *)

Section ctype_induction.
Variable P : ctype → Prop.
Hypothesis Huint : ∀ w, P (Tuint w).
Hypothesis Huchar : P Tuchar.
Hypothesis Hnamed : ∀ x, P (Tnamed x).
Hypothesis Hconst : ∀ t, P t → P (Tconst t).
Hypothesis Hpointer : ∀ t, P t → P (Tpointer t).
Hypothesis Hstruct : ∀ ms, Forall (λ m, P m.2) ms → P (Tstruct ms).
Hypothesis Hfunction : ∀ r ps, P r → Forall (λ m, P m.2) ps → P (Tfunction r ps).

Fixpoint ctype_nested_ind (t : ctype) : P t :=
  let all :=
    fix all (ms : list (string * ctype)) : Forall (λ m, P m.2) ms :=
      match ms with
      | [] => @List.Forall_nil _ (λ m, P m.2)
      | (x, tx) :: ms' =>
          @List.Forall_cons _ (λ m, P m.2) (x, tx) ms' (ctype_nested_ind tx) (all ms')
      end in
  match t with
  | Tuint w => Huint w
  | Tuchar => Huchar
  | Tnamed x => Hnamed x
  | Tconst t' => Hconst t' (ctype_nested_ind t')
  | Tpointer t' => Hpointer t' (ctype_nested_ind t')
  | Tstruct ms => Hstruct ms (all ms)
  | Tfunction r ps => Hfunction r ps (ctype_nested_ind r) (all ps)
  end.

End ctype_induction.

(** * Properties *)

(** ** What came before the header does not disturb it *)

Lemma overlay_empty pre : overlay empty_env pre = pre.
Proof.
  destruct pre as [m td]. unfold overlay, empty_env. simpl.
  by rewrite !(left_id_L ∅ (∪)).
Qed.

Lemma overlay_singleton pre x b :
  macros pre !! x = Some b → overlay (Env {[ x := b ]} ∅) pre = pre.
Proof.
  destruct pre as [m td]. unfold overlay. simpl. intros Hx.
  rewrite (left_id_L ∅ (∪)), <- insert_union_singleton_l.
  by rewrite insert_id.
Qed.

Lemma resolve_members_union (td td' : gmap string ctype) ms ms' :
  Forall (λ m, ∀ t', resolve td m.2 = Some t' → resolve (td ∪ td') m.2 = Some t') ms →
  resolve_members (resolve td) ms = Some ms' →
  resolve_members (resolve (td ∪ td')) ms = Some ms'.
Proof.
  intros Hall. revert ms'.
  induction Hall as [|[x t] ms Ht _ IH]; intros ms'; simpl in *; [done|].
  destruct (resolve td t) as [t1|] eqn:E1; [|done].
  destruct (resolve_members (resolve td) ms) as [ms1|] eqn:E2; [|done].
  intros [= <-]. by rewrite (Ht t1), (IH ms1).
Qed.

Lemma resolve_union (td td' : gmap string ctype) t t' :
  resolve td t = Some t' → resolve (td ∪ td') t = Some t'.
Proof.
  revert t'. induction t as [w| |x|t IH|t IH|ms IH|r ps IHr IHps]
    using ctype_nested_ind; intros t'; simpl.
  - done.
  - done.
  - apply lookup_union_Some_l.
  - destruct (resolve td t) as [t1|]; [|done]. by rewrite (IH t1).
  - destruct (resolve td t) as [t1|]; [|done]. by rewrite (IH t1).
  - destruct (resolve_members (resolve td) ms) as [ms1|] eqn:E; [|done].
    by rewrite (resolve_members_union td td' ms ms1).
  - destruct (resolve td r) as [r1|]; [|done].
    destruct (resolve_members (resolve td) ps) as [ps1|] eqn:E; [|done].
    by rewrite (IHr r1), (resolve_members_union td td' ps ps1).
Qed.

Lemma expand_union (m m' : gmap string body) k k' b v :
  (k ≤ k')%nat → expand k m b = Some v → expand k' (m ∪ m') b = Some v.
Proof.
  revert k' m m' b. induction k as [|k IH]; intros k' m m' b Hk.
  - destruct k'; simpl; destruct (atom b); done.
  - destruct k' as [|k']; [lia|]. simpl.
    destruct (atom b) as [|n sfx|x|b']; try done.
    destruct (m !! x) as [bx|] eqn:Hx; [|done]. simpl.
    rewrite (lookup_union_Some_l m m' x bx Hx). simpl.
    rewrite delete_union. apply IH. lia.
Qed.

Lemma typedefs_overlay s pre x t :
  typedefs s !! x = Some t → typedefs (overlay s pre) !! x = Some t.
Proof. apply lookup_union_Some_l. Qed.

Lemma constant_overlay s pre x v :
  constant s x = Some v → constant (overlay s pre) x = Some v.
Proof.
  unfold constant. apply expand_union.
  apply map_subseteq_size, map_union_subseteq_l.
Qed.

Lemma construct_overlay s pre tname zs o :
  construct s tname zs = Some o → construct (overlay s pre) tname zs = Some o.
Proof.
  unfold construct.
  destruct (typedefs s !! tname) as [t|] eqn:Ht; [|done].
  by rewrite (typedefs_overlay s pre tname t Ht).
Qed.

Lemma frames_define pre G x b : frames pre G (define x b).
Proof.
  intros s s' HG [= <-]. split.
  - unfold define, overlay. simpl. by rewrite insert_union_l.
  - intros g Hg. destruct (HG g Hg) as [?|[bg Hbg]]; [by left|right]. simpl.
    destruct (decide (x = g)) as [->|Hne].
    + rewrite lookup_insert_eq. eauto.
    + rewrite lookup_insert_ne by done. eauto.
Qed.

Lemma frames_typedef pre G t x : frames pre G (typedef t x).
Proof.
  intros s s' HG. unfold typedef.
  destruct (resolve (typedefs s) t) as [t'|] eqn:Ht; [|done].
  simpl. intros [= <-]. split; [|done].
  unfold overlay at 1. simpl.
  rewrite (resolve_union _ (typedefs pre) t t' Ht). simpl.
  unfold overlay. simpl. by rewrite insert_union_l.
Qed.

Lemma frames_block pre G ds :
  Forall (frames pre G) ds → frames pre G (block ds).
Proof.
  induction 1 as [|d ds Hd _ IH]; intros s s' HG; simpl.
  - by intros [= <-].
  - destruct (d s) as [s1|] eqn:Hs1; [|done]. simpl. intros Hs'.
    destruct (Hd s s1 HG Hs1) as [-> HG1]. simpl. by apply IH.
Qed.

Lemma frames_ifndef pre G g ds :
  g ∈ G → Forall (frames pre G) ds → frames pre G (ifndef g ds).
Proof.
  intros Hg Hds s s' HG. unfold ifndef.
  destruct (macros s !! g) as [b|] eqn:Hs.
  - intros [= <-]. split; [|done].
    unfold overlay at 1. simpl. by rewrite (lookup_union_Some_l _ _ g b Hs).
  - destruct (HG g Hg) as [Hpre|[b Hb]]; [|congruence].
    unfold overlay at 1. simpl.
    assert ((macros s ∪ macros pre) !! g = None) as ->
      by by apply lookup_union_None.
    by apply frames_block.
Qed.

Ltac frame_directives :=
  repeat first
    [ apply frames_define
    | apply frames_typedef
    | apply frames_block
    | apply frames_ifndef; [unfold guards; set_solver|]
    | apply List.Forall_cons
    | apply List.Forall_nil ].

Lemma Std_Types_h_frames pre : frames pre guards Std_Types_h.
Proof. unfold Std_Types_h, Platform_Types_h, Compiler_h. frame_directives. Qed.

Lemma Std_Types_h_seed_accepted o : is_Some (Std_Types_h (seed o)).
Proof. destruct o; apply (bool_decide_unpack _); vm_compute; exact I. Qed.

Lemma Std_Types_h_seed o : Std_Types_h (seed o) = Some (included o).
Proof.
  destruct (Std_Types_h_seed_accepted o) as [s Hs].
  unfold included. by rewrite Hs.
Qed.

Lemma overlay_seed pre :
  overlay (seed (macros pre !! "STATUSTYPEDEFINED")) pre = pre.
Proof.
  destruct (macros pre !! "STATUSTYPEDEFINED") as [b|] eqn:Hb; simpl.
  - by apply overlay_singleton.
  - apply overlay_empty.
Qed.

Lemma guarded_seed pre :
  macros pre !! "STD_TYPES_H" = None →
  guarded pre guards (seed (macros pre !! "STATUSTYPEDEFINED")).
Proof.
  intros Hfirst g Hg. unfold guards in Hg.
  apply elem_of_cons in Hg as [->|Hg]; [by left|].
  apply elem_of_cons in Hg as [->|Hg]; [|by apply elem_of_nil in Hg].
  destruct (macros pre !! "STATUSTYPEDEFINED") as [b|]; [right|by left].
  simpl. rewrite lookup_singleton_eq. eauto.
Qed.

(** First inclusion: the header succeeds, and what it leaves is what it
    makes of the seed, laid over the earlier environment. *)
Lemma Std_Types_h_first pre :
  macros pre !! "STD_TYPES_H" = None →
  Std_Types_h pre =
    Some (overlay (included (macros pre !! "STATUSTYPEDEFINED")) pre).
Proof.
  intros Hfirst.
  destruct (Std_Types_h_frames pre _ _ (guarded_seed pre Hfirst)
              (Std_Types_h_seed _)) as [H _].
  by rewrite overlay_seed in H.
Qed.

Lemma ifndef_defined x ds s b : macros s !! x = Some b → ifndef x ds s = Some s.
Proof. intros H. unfold ifndef. by rewrite H. Qed.

Lemma included_guard o : macros (included o) !! "STD_TYPES_H" = Some Empty.
Proof. destruct o; vm_compute; reflexivity. Qed.

(** Later inclusions change nothing: the include guard does its work. *)
Lemma Std_Types_h_again pre s :
  Std_Types_h pre = Some s → Std_Types_h s = Some s.
Proof.
  destruct (macros pre !! "STD_TYPES_H") as [b|] eqn:Hg.
  - unfold Std_Types_h at 1. rewrite (ifndef_defined _ _ _ _ Hg).
    intros [= <-]. by apply (ifndef_defined _ _ _ b).
  - rewrite (Std_Types_h_first pre Hg). intros [= <-].
    apply (ifndef_defined _ _ _ Empty). simpl.
    apply lookup_union_Some_l, included_guard.
Qed.

(** When an earlier header has claimed [STATUSTYPEDEFINED], the header
    leaves [E_OK] to it. *)
Lemma E_OK_left_alone pre b :
  macros pre !! "STD_TYPES_H" = None →
  macros pre !! "STATUSTYPEDEFINED" = Some b →
  ∃ s, Std_Types_h pre = Some s ∧ macros s !! "E_OK" = macros pre !! "E_OK".
Proof.
  intros Hfirst Hb. rewrite (Std_Types_h_first pre Hfirst), Hb.
  eexists; split; [done|]. simpl. by apply lookup_union_r.
Qed.

(** ** Reading the environment the header leaves *)

Lemma read_constant pre x v :
  (∀ o, constant (included o) x = Some v) →
  constant (overlay (included (macros pre !! "STATUSTYPEDEFINED")) pre) x = Some v.
Proof. intros H. apply constant_overlay, H. Qed.

Lemma read_typedef pre x t :
  (∀ o, typedefs (included o) !! x = Some t) →
  typedefs (overlay (included (macros pre !! "STATUSTYPEDEFINED")) pre) !! x = Some t.
Proof. intros H. apply typedefs_overlay, H. Qed.

Ltac by_inclusion := intros [?|]; vm_compute; reflexivity.
Ltac constant_is := apply read_constant; by_inclusion.
Ltac typedef_is := apply read_typedef; by_inclusion.

(** An unsigned type of width [w] holds exactly the values [0 .. 2^w - 1]. *)
Lemma representable_uint w z : 0 ≤ w → representable (Tuint w) z ↔ 0 ≤ z < 2 ^ w.
Proof.
  intros Hw. unfold representable. simpl. split.
  - intros [= H]. rewrite <- H. apply Z.mod_pos_bound. by apply Z.pow_pos_nonneg.
  - intros H. by rewrite Z.mod_small.
Qed.

Lemma convert_uint_range w z v : 0 ≤ w → convert (Tuint w) z = Some v → 0 ≤ v < 2 ^ w.
Proof.
  intros Hw [= <-]. apply Z.mod_pos_bound. by apply Z.pow_pos_nonneg.
Qed.

(** Initialisers that are values of their members' types are stored as they
    are, member by member. *)
Lemma initialise_representable ms zs :
  Forall2 (λ m z, representable m.2 z) ms zs →
  initialise ms zs = Some (zip ms.*1 zs).
Proof.
  induction 1 as [|[x t] z ms zs Hz _ IH]; simpl; [done|].
  unfold representable in Hz. simpl in Hz. by rewrite Hz, IH.
Qed.

(** ** The vocabulary of the header *)

(** C1. In a translation unit that includes the header for the first time,
    and in which no earlier header has claimed [STATUSTYPEDEFINED], the
    success status [E_OK] is 0, the failure status [E_NOT_OK] is 1, and the
    two differ. *)
Theorem E_OK_E_NOT_OK_values pre :
  macros pre !! "STD_TYPES_H" = None →
  macros pre !! "STATUSTYPEDEFINED" = None →
  ∃ s, Std_Types_h pre = Some s ∧
    constant s "E_OK" = Some 0 ∧
    constant s "E_NOT_OK" = Some 1 ∧
    constant s "E_OK" ≠ constant s "E_NOT_OK".
Proof.
  intros Hfirst Hstatus. rewrite (Std_Types_h_first pre Hfirst), Hstatus.
  set (s := overlay _ pre). exists s. split; [reflexivity|].
  assert (constant s "E_OK" = Some 0) as Hok
    by (apply constant_overlay; vm_compute; reflexivity).
  assert (constant s "E_NOT_OK" = Some 1) as Hnok
    by (apply constant_overlay; vm_compute; reflexivity).
  clearbody s. by rewrite Hok, Hnok.
Qed.

Lemma E_OK_E_NOT_OK_values_witness :
  macros empty_env !! "STD_TYPES_H" = None ∧
  macros empty_env !! "STATUSTYPEDEFINED" = None ∧
  ∃ s, Std_Types_h empty_env = Some s ∧
    constant s "E_OK" = Some 0 ∧
    constant s "E_NOT_OK" = Some 1 ∧
    constant s "E_OK" ≠ constant s "E_NOT_OK".
Proof.
  split; [reflexivity|]. split; [reflexivity|].
  apply (E_OK_E_NOT_OK_values empty_env); reflexivity.
Defined.

Ltac first_inclusion pre Hfirst :=
  rewrite (Std_Types_h_first pre Hfirst); eexists; split; [reflexivity|].

Ltac read_constants pre :=
  repeat match goal with
         | |- context [constant (overlay _ pre) ?x] =>
             erewrite (read_constant pre x) by by_inclusion
         end.

Ltac distinct := apply (bool_decide_unpack _); vm_compute; exact I.

(** C3. The five transformer classes are 0, 1, 2, 3 and 255, no two of them
    the same, and the custom class is the largest value of the 8-bit type
    [Std_TransformerClass]. *)
Theorem Std_TransformerClass_values pre :
  macros pre !! "STD_TYPES_H" = None →
  ∃ s, Std_Types_h pre = Some s ∧
    constant s "STD_TRANSFORMER_UNSPECIFIED" = Some 0 ∧
    constant s "STD_TRANSFORMER_SERIALIZER" = Some 1 ∧
    constant s "STD_TRANSFORMER_SAFETY" = Some 2 ∧
    constant s "STD_TRANSFORMER_SECURITY" = Some 3 ∧
    constant s "STD_TRANSFORMER_CUSTOM" = Some 255 ∧
    NoDup [ constant s "STD_TRANSFORMER_UNSPECIFIED";
            constant s "STD_TRANSFORMER_SERIALIZER";
            constant s "STD_TRANSFORMER_SAFETY";
            constant s "STD_TRANSFORMER_SECURITY";
            constant s "STD_TRANSFORMER_CUSTOM" ] ∧
    typedefs s !! "Std_TransformerClass" = Some (Tuint 8) ∧
    max_value (Tuint 8) = constant s "STD_TRANSFORMER_CUSTOM".
Proof.
  intros Hfirst. first_inclusion pre Hfirst. read_constants pre.
  repeat split; [distinct|typedef_is].
Qed.

Lemma Std_TransformerClass_values_witness :
  macros empty_env !! "STD_TYPES_H" = None ∧
  ∃ s, Std_Types_h empty_env = Some s ∧
    constant s "STD_TRANSFORMER_UNSPECIFIED" = Some 0 ∧
    constant s "STD_TRANSFORMER_SERIALIZER" = Some 1 ∧
    constant s "STD_TRANSFORMER_SAFETY" = Some 2 ∧
    constant s "STD_TRANSFORMER_SECURITY" = Some 3 ∧
    constant s "STD_TRANSFORMER_CUSTOM" = Some 255 ∧
    NoDup [ constant s "STD_TRANSFORMER_UNSPECIFIED";
            constant s "STD_TRANSFORMER_SERIALIZER";
            constant s "STD_TRANSFORMER_SAFETY";
            constant s "STD_TRANSFORMER_SECURITY";
            constant s "STD_TRANSFORMER_CUSTOM" ] ∧
    typedefs s !! "Std_TransformerClass" = Some (Tuint 8) ∧
    max_value (Tuint 8) = constant s "STD_TRANSFORMER_CUSTOM".
Proof.
  split; [reflexivity|].
  apply (Std_TransformerClass_values empty_env); reflexivity.
Defined.

(** C4. Each pair of level constants is 1 and 0, and the two of a pair
    differ: [STD_HIGH]/[STD_LOW], [STD_ACTIVE]/[STD_IDLE],
    [STD_ON]/[STD_OFF]. *)
Theorem level_constants_values pre :
  macros pre !! "STD_TYPES_H" = None →
  ∃ s, Std_Types_h pre = Some s ∧
    (constant s "STD_HIGH" = Some 1 ∧ constant s "STD_LOW" = Some 0 ∧
     constant s "STD_HIGH" ≠ constant s "STD_LOW") ∧
    (constant s "STD_ACTIVE" = Some 1 ∧ constant s "STD_IDLE" = Some 0 ∧
     constant s "STD_ACTIVE" ≠ constant s "STD_IDLE") ∧
    (constant s "STD_ON" = Some 1 ∧ constant s "STD_OFF" = Some 0 ∧
     constant s "STD_ON" ≠ constant s "STD_OFF").
Proof.
  intros Hfirst. first_inclusion pre Hfirst. read_constants pre.
  repeat split; discriminate.
Qed.

Lemma level_constants_values_witness :
  macros empty_env !! "STD_TYPES_H" = None ∧
  ∃ s, Std_Types_h empty_env = Some s ∧
    (constant s "STD_HIGH" = Some 1 ∧ constant s "STD_LOW" = Some 0 ∧
     constant s "STD_HIGH" ≠ constant s "STD_LOW") ∧
    (constant s "STD_ACTIVE" = Some 1 ∧ constant s "STD_IDLE" = Some 0 ∧
     constant s "STD_ACTIVE" ≠ constant s "STD_IDLE") ∧
    (constant s "STD_ON" = Some 1 ∧ constant s "STD_OFF" = Some 0 ∧
     constant s "STD_ON" ≠ constant s "STD_OFF").
Proof.
  split; [reflexivity|].
  apply (level_constants_values empty_env); reflexivity.
Defined.

(** C5. The message types are request = 0 and response = 1, the message
    results are ok = 0 and error = 1, and the two of each kind differ. *)
Theorem message_constants_values pre :
  macros pre !! "STD_TYPES_H" = None →
  ∃ s, Std_Types_h pre = Some s ∧
    (constant s "STD_MESSAGETYPE_REQUEST" = Some 0 ∧
     constant s "STD_MESSAGETYPE_RESPONSE" = Some 1 ∧
     constant s "STD_MESSAGETYPE_REQUEST" ≠ constant s "STD_MESSAGETYPE_RESPONSE") ∧
    (constant s "STD_MESSAGERESULT_OK" = Some 0 ∧
     constant s "STD_MESSAGERESULT_ERROR" = Some 1 ∧
     constant s "STD_MESSAGERESULT_OK" ≠ constant s "STD_MESSAGERESULT_ERROR").
Proof.
  intros Hfirst. first_inclusion pre Hfirst. read_constants pre.
  repeat split; discriminate.
Qed.

Lemma message_constants_values_witness :
  macros empty_env !! "STD_TYPES_H" = None ∧
  ∃ s, Std_Types_h empty_env = Some s ∧
    (constant s "STD_MESSAGETYPE_REQUEST" = Some 0 ∧
     constant s "STD_MESSAGETYPE_RESPONSE" = Some 1 ∧
     constant s "STD_MESSAGETYPE_REQUEST" ≠ constant s "STD_MESSAGETYPE_RESPONSE") ∧
    (constant s "STD_MESSAGERESULT_OK" = Some 0 ∧
     constant s "STD_MESSAGERESULT_ERROR" = Some 1 ∧
     constant s "STD_MESSAGERESULT_OK" ≠ constant s "STD_MESSAGERESULT_ERROR").
Proof.
  split; [reflexivity|].
  apply (message_constants_values empty_env); reflexivity.
Defined.

(** C10. Every [STD_] alias has the value of the [STD_TYPES_] constant it
    stands for: vendor 30, module 197, AUTOSAR release 4.7.0, software
    version 3.6.0. *)
Theorem alias_constants_values pre :
  macros pre !! "STD_TYPES_H" = None →
  ∃ s, Std_Types_h pre = Some s ∧
    Forall (λ '(alias, name, v),
              constant s alias = constant s name ∧ constant s name = Some v)
      [ ("STD_VENDOR_ID", "STD_TYPES_VENDOR_ID", 30);
        ("STD_MODULE_ID", "STD_TYPES_MODULE_ID", 197);
        ("STD_AR_RELEASE_MAJOR_VERSION", "STD_TYPES_AR_RELEASE_MAJOR_VERSION", 4);
        ("STD_AR_RELEASE_MINOR_VERSION", "STD_TYPES_AR_RELEASE_MINOR_VERSION", 7);
        ("STD_AR_RELEASE_REVISION_VERSION", "STD_TYPES_AR_RELEASE_REVISION_VERSION", 0);
        ("STD_SW_MAJOR_VERSION", "STD_TYPES_SW_MAJOR_VERSION", 3);
        ("STD_SW_MINOR_VERSION", "STD_TYPES_SW_MINOR_VERSION", 6);
        ("STD_SW_PATCH_VERSION", "STD_TYPES_SW_PATCH_VERSION", 0) ].
Proof.
  intros Hfirst. first_inclusion pre Hfirst.
  repeat apply List.Forall_cons; [..|apply List.Forall_nil];
    read_constants pre; by split.
Qed.

Lemma alias_constants_values_witness :
  macros empty_env !! "STD_TYPES_H" = None ∧
  ∃ s, Std_Types_h empty_env = Some s ∧
    Forall (λ '(alias, name, v),
              constant s alias = constant s name ∧ constant s name = Some v)
      [ ("STD_VENDOR_ID", "STD_TYPES_VENDOR_ID", 30);
        ("STD_MODULE_ID", "STD_TYPES_MODULE_ID", 197);
        ("STD_AR_RELEASE_MAJOR_VERSION", "STD_TYPES_AR_RELEASE_MAJOR_VERSION", 4);
        ("STD_AR_RELEASE_MINOR_VERSION", "STD_TYPES_AR_RELEASE_MINOR_VERSION", 7);
        ("STD_AR_RELEASE_REVISION_VERSION", "STD_TYPES_AR_RELEASE_REVISION_VERSION", 0);
        ("STD_SW_MAJOR_VERSION", "STD_TYPES_SW_MAJOR_VERSION", 3);
        ("STD_SW_MINOR_VERSION", "STD_TYPES_SW_MINOR_VERSION", 6);
        ("STD_SW_PATCH_VERSION", "STD_TYPES_SW_PATCH_VERSION", 0) ].
Proof.
  split; [reflexivity|].
  apply (alias_constants_values empty_env); reflexivity.
Defined.

(** C6. [Std_VersionInfoType] is a structure of exactly five members, in the
    order [vendorID], [moduleID], [sw_major_version], [sw_minor_version],
    [sw_patch_version]; the first two are 16-bit and the last three 8-bit
    unsigned integers. *)
Theorem Std_VersionInfoType_members pre :
  macros pre !! "STD_TYPES_H" = None →
  ∃ s, Std_Types_h pre = Some s ∧
    ∃ ms, typedefs s !! "Std_VersionInfoType" = Some (Tstruct ms) ∧
      length ms = 5%nat ∧
      ms.*1 = [ "vendorID"; "moduleID"; "sw_major_version";
                "sw_minor_version"; "sw_patch_version" ] ∧
      ms.*2 = [ Tuint 16; Tuint 16; Tuint 8; Tuint 8; Tuint 8 ].
Proof.
  intros Hfirst. first_inclusion pre Hfirst.
  eexists. split; [typedef_is|]. by repeat split.
Qed.

Lemma Std_VersionInfoType_members_witness :
  macros empty_env !! "STD_TYPES_H" = None ∧
  ∃ s, Std_Types_h empty_env = Some s ∧
    ∃ ms, typedefs s !! "Std_VersionInfoType" = Some (Tstruct ms) ∧
      length ms = 5%nat ∧
      ms.*1 = [ "vendorID"; "moduleID"; "sw_major_version";
                "sw_minor_version"; "sw_patch_version" ] ∧
      ms.*2 = [ Tuint 16; Tuint 16; Tuint 8; Tuint 8; Tuint 8 ].
Proof.
  split; [reflexivity|].
  apply (Std_VersionInfoType_members empty_env); reflexivity.
Defined.

(** C7. [Std_ReturnType] is the 8-bit unsigned integer type: its values are
    exactly 0 .. 255, whatever is stored in it lies in that range, and among
    them [E_OK] = 0 stands for success and [E_NOT_OK] = 1 for failure. *)
Theorem Std_ReturnType_range pre :
  macros pre !! "STD_TYPES_H" = None →
  macros pre !! "STATUSTYPEDEFINED" = None →
  ∃ s, Std_Types_h pre = Some s ∧
    ∃ t, typedefs s !! "Std_ReturnType" = Some t ∧
      t = Tuint 8 ∧
      (∀ z, representable t z ↔ 0 ≤ z ≤ 255) ∧
      (∀ z, ∃ v, convert t z = Some v ∧ 0 ≤ v ≤ 255) ∧
      constant s "E_OK" = Some 0 ∧ representable t 0 ∧
      constant s "E_NOT_OK" = Some 1 ∧ representable t 1.
Proof.
  intros Hfirst Hstatus. rewrite (Std_Types_h_first pre Hfirst), Hstatus.
  eexists. split; [reflexivity|].
  exists (Tuint 8). split; [apply typedefs_overlay; vm_compute; reflexivity|].
  split; [reflexivity|]. split; [|split].
  - intros z. rewrite representable_uint by lia. lia.
  - intros z. eexists. split; [reflexivity|].
    pose proof (Z.mod_pos_bound z (2 ^ 8)). lia.
  - repeat split; apply constant_overlay; vm_compute; reflexivity.
Qed.

Lemma Std_ReturnType_range_witness :
  macros empty_env !! "STD_TYPES_H" = None ∧
  macros empty_env !! "STATUSTYPEDEFINED" = None ∧
  ∃ s, Std_Types_h empty_env = Some s ∧
    ∃ t, typedefs s !! "Std_ReturnType" = Some t ∧
      t = Tuint 8 ∧
      (∀ z, representable t z ↔ 0 ≤ z ≤ 255) ∧
      (∀ z, ∃ v, convert t z = Some v ∧ 0 ≤ v ≤ 255) ∧
      constant s "E_OK" = Some 0 ∧ representable t 0 ∧
      constant s "E_NOT_OK" = Some 1 ∧ representable t 1.
Proof.
  split; [reflexivity|]. split; [reflexivity|].
  apply (Std_ReturnType_range empty_env); reflexivity.
Defined.

(** C9. [Std_ExtractProtocolHeaderFieldsType] is a pointer to a function of
    four parameters: a pointer to constant bytes, a 32-bit unsigned length,
    a pointer to a (writable) [Std_MessageTypeType] and a pointer to a
    (writable) [Std_MessageResultType]; it returns [Std_ReturnType]. *)
Theorem Std_ExtractProtocolHeaderFieldsType_signature pre :
  macros pre !! "STD_TYPES_H" = None →
  ∃ s, Std_Types_h pre = Some s ∧
    ∃ ret buffer len mtype mresult,
      typedefs s !! "Std_ExtractProtocolHeaderFieldsType" =
        Some (Tpointer (Tfunction ret
                [ ("buffer", Tpointer (Tconst buffer));
                  ("bufferLength", len);
                  ("messageType", Tpointer mtype);
                  ("messageResult", Tpointer mresult) ])) ∧
      typedefs s !! "Std_ReturnType" = Some ret ∧
      buffer = Tuint 8 ∧
      len = Tuint 32 ∧
      typedefs s !! "Std_MessageTypeType" = Some mtype ∧
      typedefs s !! "Std_MessageResultType" = Some mresult.
Proof.
  intros Hfirst. first_inclusion pre Hfirst.
  do 5 eexists. split; [typedef_is|].
  repeat split; typedef_is.
Qed.

Lemma Std_ExtractProtocolHeaderFieldsType_signature_witness :
  macros empty_env !! "STD_TYPES_H" = None ∧
  ∃ s, Std_Types_h empty_env = Some s ∧
    ∃ ret buffer len mtype mresult,
      typedefs s !! "Std_ExtractProtocolHeaderFieldsType" =
        Some (Tpointer (Tfunction ret
                [ ("buffer", Tpointer (Tconst buffer));
                  ("bufferLength", len);
                  ("messageType", Tpointer mtype);
                  ("messageResult", Tpointer mresult) ])) ∧
      typedefs s !! "Std_ReturnType" = Some ret ∧
      buffer = Tuint 8 ∧
      len = Tuint 32 ∧
      typedefs s !! "Std_MessageTypeType" = Some mtype ∧
      typedefs s !! "Std_MessageResultType" = Some mresult.
Proof.
  split; [reflexivity|].
  apply (Std_ExtractProtocolHeaderFieldsType_signature empty_env); reflexivity.
Defined.

(** C2. A [Std_VersionInfoType] object initialised with five values of its
    members' types gives each of them back unchanged when its members are
    read; the witness is the scenario vendor 30, module 197, version
    3.6.0. *)
Theorem Std_VersionInfoType_roundtrip pre (vendor modul major minor patch : Z) :
  macros pre !! "STD_TYPES_H" = None →
  0 ≤ vendor < 2 ^ 16 → 0 ≤ modul < 2 ^ 16 →
  0 ≤ major < 2 ^ 8 → 0 ≤ minor < 2 ^ 8 → 0 ≤ patch < 2 ^ 8 →
  ∃ s, Std_Types_h pre = Some s ∧
    ∃ o, construct s "Std_VersionInfoType" [vendor; modul; major; minor; patch] = Some o ∧
      member o "vendorID" = Some vendor ∧
      member o "moduleID" = Some modul ∧
      member o "sw_major_version" = Some major ∧
      member o "sw_minor_version" = Some minor ∧
      member o "sw_patch_version" = Some patch.
Proof.
  intros Hfirst Hvendor Hmodul Hmajor Hminor Hpatch.
  first_inclusion pre Hfirst.
  eexists. split.
  - apply construct_overlay. unfold construct.
    eassert (∀ o, typedefs (included o) !! "Std_VersionInfoType" = Some _) as ->
      by by_inclusion.
    cbn -[initialise]. apply initialise_representable.
    repeat apply List.Forall2_cons; [..|apply List.Forall2_nil];
      by apply representable_uint.
  - by repeat split.
Qed.

Lemma Std_VersionInfoType_roundtrip_witness :
  macros empty_env !! "STD_TYPES_H" = None ∧
  0 ≤ 30 < 2 ^ 16 ∧ 0 ≤ 197 < 2 ^ 16 ∧
  0 ≤ 3 < 2 ^ 8 ∧ 0 ≤ 6 < 2 ^ 8 ∧ 0 ≤ 0 < 2 ^ 8 ∧
  ∃ s, Std_Types_h empty_env = Some s ∧
    ∃ o, construct s "Std_VersionInfoType" [30; 197; 3; 6; 0] = Some o ∧
      member o "vendorID" = Some 30 ∧
      member o "moduleID" = Some 197 ∧
      member o "sw_major_version" = Some 3 ∧
      member o "sw_minor_version" = Some 6 ∧
      member o "sw_patch_version" = Some 0.
Proof.
  split; [reflexivity|]. do 5 (split; [lia|]).
  apply (Std_VersionInfoType_roundtrip empty_env 30 197 3 6 0);
    [reflexivity|lia..].
Defined.

(** C8. A [Std_TransformerError] object initialised with an error code and a
    class gives both back unchanged when its two members are read; both
    members are 8-bit unsigned integers. *)
Theorem Std_TransformerError_roundtrip pre (code class : Z) :
  macros pre !! "STD_TYPES_H" = None →
  0 ≤ code < 2 ^ 8 → 0 ≤ class < 2 ^ 8 →
  ∃ s, Std_Types_h pre = Some s ∧
    typedefs s !! "Std_TransformerError" =
      Some (Tstruct [("errorCode", Tuint 8); ("transformerClass", Tuint 8)]) ∧
    ∃ o, construct s "Std_TransformerError" [code; class] = Some o ∧
      member o "errorCode" = Some code ∧
      member o "transformerClass" = Some class.
Proof.
  intros Hfirst Hcode Hclass. first_inclusion pre Hfirst.
  split; [typedef_is|]. eexists. split.
  - apply construct_overlay. unfold construct.
    eassert (∀ o, typedefs (included o) !! "Std_TransformerError" = Some _) as ->
      by by_inclusion.
    cbn -[initialise]. apply initialise_representable.
    repeat apply List.Forall2_cons; [..|apply List.Forall2_nil];
      by apply representable_uint.
  - by repeat split.
Qed.

Lemma Std_TransformerError_roundtrip_witness :
  macros empty_env !! "STD_TYPES_H" = None ∧
  0 ≤ 7 < 2 ^ 8 ∧ 0 ≤ 255 < 2 ^ 8 ∧
  ∃ s, Std_Types_h empty_env = Some s ∧
    typedefs s !! "Std_TransformerError" =
      Some (Tstruct [("errorCode", Tuint 8); ("transformerClass", Tuint 8)]) ∧
    ∃ o, construct s "Std_TransformerError" [7; 255] = Some o ∧
      member o "errorCode" = Some 7 ∧
      member o "transformerClass" = Some 255.
Proof.
  split; [reflexivity|]. do 2 (split; [lia|]).
  apply (Std_TransformerError_roundtrip empty_env 7 255);
    [reflexivity|lia..].
Defined.

(** * Beyond the vocabulary: guards, earlier environments, later uses *)

(** ** The include guard *)


(** ** What the header leaves untouched *)

Lemma included_macros_dom o :
  dom (macros (included o)) ⊆ list_to_set Std_Types_macros.
Proof. destruct o; apply (bool_decide_unpack _); vm_compute; exact I. Qed.

Lemma included_typedefs_dom o :
  dom (typedefs (included o)) ⊆ list_to_set Std_Types_typedefs.
Proof. destruct o; apply (bool_decide_unpack _); vm_compute; exact I. Qed.

Lemma included_macros_other o x :
  x ∉ Std_Types_macros → macros (included o) !! x = None.
Proof.
  intros Hx. apply not_elem_of_dom. intros Hdom.
  apply included_macros_dom, elem_of_list_to_set in Hdom. done.
Qed.

Lemma included_typedefs_other o x :
  x ∉ Std_Types_typedefs → typedefs (included o) !! x = None.
Proof.
  intros Hx. apply not_elem_of_dom. intros Hdom.
  apply included_typedefs_dom, elem_of_list_to_set in Hdom. done.
Qed.

Lemma included_macros_declared o :
  Forall (λ x, x ≠ "E_OK" → is_Some (macros (included o) !! x)) Std_Types_macros.
Proof. destruct o; apply (bool_decide_unpack _); vm_compute; exact I. Qed.

Lemma included_typedefs_declared o :
  Forall (λ x, x ≠ "StatusType" → is_Some (typedefs (included o) !! x))
    Std_Types_typedefs.
Proof. destruct o; apply (bool_decide_unpack _); vm_compute; exact I. Qed.



(** ** The guard for status types of an operating system *)

(** X3. When an earlier header has claimed [STATUSTYPEDEFINED], the header
    leaves [E_OK] and [StatusType] to it, whatever it made of them, keeps
    the guard as it found it, and still defines [E_NOT_OK] as 1 and
    [Std_ReturnType] as the 8-bit unsigned integer. *)
Theorem STATUSTYPEDEFINED_respected pre b :
  macros pre !! "STD_TYPES_H" = None →
  macros pre !! "STATUSTYPEDEFINED" = Some b →
  ∃ s, Std_Types_h pre = Some s ∧
    macros s !! "E_OK" = macros pre !! "E_OK" ∧
    typedefs s !! "StatusType" = typedefs pre !! "StatusType" ∧
    macros s !! "STATUSTYPEDEFINED" = Some b ∧
    constant s "E_NOT_OK" = Some 1 ∧
    typedefs s !! "Std_ReturnType" = Some (Tuint 8).
Proof.
  intros Hfirst Hb. rewrite (Std_Types_h_first pre Hfirst), Hb.
  eexists. split; [reflexivity|]. simpl. repeat split.
  - by apply lookup_union_r.
  - by apply lookup_union_r.
  - by apply lookup_union_Some_l.
  - apply constant_overlay. vm_compute. reflexivity.
  - by apply lookup_union_Some_l.
Qed.

Lemma STATUSTYPEDEFINED_respected_witness :
  macros os_env !! "STD_TYPES_H" = None ∧
  macros os_env !! "STATUSTYPEDEFINED" = Some Empty ∧
  ∃ s, Std_Types_h os_env = Some s ∧
    macros s !! "E_OK" = macros os_env !! "E_OK" ∧
    typedefs s !! "StatusType" = typedefs os_env !! "StatusType" ∧
    macros s !! "STATUSTYPEDEFINED" = Some Empty ∧
    constant s "E_NOT_OK" = Some 1 ∧
    typedefs s !! "Std_ReturnType" = Some (Tuint 8).
Proof.
  split; [reflexivity|]. split; [reflexivity|].
  apply (STATUSTYPEDEFINED_respected os_env Empty); reflexivity.
Defined.



(** ** Constants against each other and against their types *)

(** X5. The version word for configuration management packs the software
    version: its high byte is the major and its low byte the minor version,
    and the release version beside it is the patch version. *)
Theorem version_word_consistent pre :
  macros pre !! "STD_TYPES_H" = None →
  ∃ s word release major minor patch,
    Std_Types_h pre = Some s ∧
    constant s "COMMONASR__COMMON_IMPL_STDTYPES_VERSION" = Some word ∧
    constant s "COMMONASR__COMMON_IMPL_STDTYPES_RELEASE_VERSION" = Some release ∧
    constant s "STD_TYPES_SW_MAJOR_VERSION" = Some major ∧
    constant s "STD_TYPES_SW_MINOR_VERSION" = Some minor ∧
    constant s "STD_TYPES_SW_PATCH_VERSION" = Some patch ∧
    Z.shiftr word 8 = major ∧ Z.land word 0xFF = minor ∧ release = patch.
Proof.
  intros Hfirst. rewrite (Std_Types_h_first pre Hfirst).
  do 6 eexists. split; [reflexivity|].
  do 5 (split; [constant_is|]). by repeat split.
Qed.

Lemma version_word_consistent_witness :
  macros empty_env !! "STD_TYPES_H" = None ∧
  ∃ s word release major minor patch,
    Std_Types_h empty_env = Some s ∧
    constant s "COMMONASR__COMMON_IMPL_STDTYPES_VERSION" = Some word ∧
    constant s "COMMONASR__COMMON_IMPL_STDTYPES_RELEASE_VERSION" = Some release ∧
    constant s "STD_TYPES_SW_MAJOR_VERSION" = Some major ∧
    constant s "STD_TYPES_SW_MINOR_VERSION" = Some minor ∧
    constant s "STD_TYPES_SW_PATCH_VERSION" = Some patch ∧
    Z.shiftr word 8 = major ∧ Z.land word 0xFF = minor ∧ release = patch.
Proof.
  split; [reflexivity|].
  apply (version_word_consistent empty_env); reflexivity.
Defined.

(** X6. Every tag constant is a value of the type it is declared for: the
    transformer classes of [Std_TransformerClass], the message types of
    [Std_MessageTypeType], the message results of [Std_MessageResultType]
    and the failure status of [Std_ReturnType]; stored in an object of that
    type, none of them is changed. *)
Theorem tag_constants_representable pre :
  macros pre !! "STD_TYPES_H" = None →
  ∃ s, Std_Types_h pre = Some s ∧
    Forall (λ '(name, tname),
              ∃ v t, constant s name = Some v ∧
                     typedefs s !! tname = Some t ∧
                     representable t v)
      [ ("STD_TRANSFORMER_UNSPECIFIED", "Std_TransformerClass");
        ("STD_TRANSFORMER_SERIALIZER", "Std_TransformerClass");
        ("STD_TRANSFORMER_SAFETY", "Std_TransformerClass");
        ("STD_TRANSFORMER_SECURITY", "Std_TransformerClass");
        ("STD_TRANSFORMER_CUSTOM", "Std_TransformerClass");
        ("STD_MESSAGETYPE_REQUEST", "Std_MessageTypeType");
        ("STD_MESSAGETYPE_RESPONSE", "Std_MessageTypeType");
        ("STD_MESSAGERESULT_OK", "Std_MessageResultType");
        ("STD_MESSAGERESULT_ERROR", "Std_MessageResultType");
        ("E_NOT_OK", "Std_ReturnType") ].
Proof.
  intros Hfirst. first_inclusion pre Hfirst.
  repeat apply List.Forall_cons; [..|apply List.Forall_nil];
    (do 2 eexists; split; [constant_is|]; split; [typedef_is|reflexivity]).
Qed.

Lemma tag_constants_representable_witness :
  macros empty_env !! "STD_TYPES_H" = None ∧
  ∃ s, Std_Types_h empty_env = Some s ∧
    Forall (λ '(name, tname),
              ∃ v t, constant s name = Some v ∧
                     typedefs s !! tname = Some t ∧
                     representable t v)
      [ ("STD_TRANSFORMER_UNSPECIFIED", "Std_TransformerClass");
        ("STD_TRANSFORMER_SERIALIZER", "Std_TransformerClass");
        ("STD_TRANSFORMER_SAFETY", "Std_TransformerClass");
        ("STD_TRANSFORMER_SECURITY", "Std_TransformerClass");
        ("STD_TRANSFORMER_CUSTOM", "Std_TransformerClass");
        ("STD_MESSAGETYPE_REQUEST", "Std_MessageTypeType");
        ("STD_MESSAGETYPE_RESPONSE", "Std_MessageTypeType");
        ("STD_MESSAGERESULT_OK", "Std_MessageResultType");
        ("STD_MESSAGERESULT_ERROR", "Std_MessageResultType");
        ("E_NOT_OK", "Std_ReturnType") ].
Proof.
  split; [reflexivity|].
  apply (tag_constants_representable empty_env); reflexivity.
Defined.

(** ** Aliases are bound by name *)

Lemma expand_literal k m b v sfx : atom b = Int v sfx → expand k m b = Some v.
Proof. intros Hb. destruct k; simpl; by rewrite Hb. Qed.

Lemma constant_direct s x b v sfx :
  macros s !! x = Some b → atom b = Int v sfx → constant s x = Some v.
Proof.
  intros Hx Hb. unfold constant.
  destruct (size (macros s)) as [|k] eqn:Hsize.
  - apply map_size_empty_inv in Hsize. rewrite Hsize in Hx.
    by rewrite lookup_empty in Hx.
  - simpl. rewrite Hx. simpl. by apply (expand_literal _ _ _ _ sfx).
Qed.

Lemma constant_alias s x y bx b v sfx :
  x ≠ y →
  macros s !! x = Some bx → atom bx = Name y →
  macros s !! y = Some b → atom b = Int v sfx →
  constant s x = Some v.
Proof.
  intros Hne Hx Hbx Hy Hb. unfold constant.
  assert (delete x (macros s) !! y = Some b) as Hy'
    by by rewrite lookup_delete_ne.
  assert (size (delete x (macros s)) ≠ 0%nat) as Hrest
    by (intros Hz; apply map_size_empty_inv in Hz; rewrite Hz in Hy';
        by rewrite lookup_empty in Hy').
  rewrite map_size_delete_Some in Hrest by eauto.
  destruct (size (macros s)) as [|[|k]]; simpl in Hrest; [done..|].
  cbn [expand atom]. rewrite Hx. cbn [mbind option_bind].
  cbn [expand]. rewrite Hbx, Hy'. cbn [mbind option_bind].
  by apply (expand_literal _ _ _ _ sfx).
Qed.



(** ** Initialisers out of range and out of number *)

Lemma initialise_is_Some ms zs :
  Forall (λ m, ∃ w, m.2 = Tuint w) ms →
  is_Some (initialise ms zs) ↔ (length zs ≤ length ms)%nat.
Proof.
  intros Hms. revert zs. induction Hms as [|[x t] ms [w Hw] _ IH]; intros zs.
  - destruct zs; simpl; split; [lia|by eauto|by intros [? [=]]|lia].
  - simpl in Hw. subst t. cbn [initialise convert mbind option_bind].
    destruct (initialise ms (tl zs)) as [o|] eqn:Ho.
    + assert (length (tl zs) ≤ length ms)%nat as Hlen by (apply IH; eauto).
      split; [|by eauto]. intros _. destruct zs; simpl in *; lia.
    + split; [by intros [? [=]]|]. intros Hlen.
      assert (is_Some (initialise ms (tl zs))) as [o Ho'].
      { apply IH. destruct zs; simpl in *; lia. }
      congruence.
Qed.

(** X8. Initialisers are stored modulo the width of their member and
    missing ones as zero: a [Std_VersionInfoType] object initialised with at
    most five integers, of any size, reads back the first two modulo 2^16
    and the next three modulo 2^8. *)
Theorem Std_VersionInfoType_initialisers pre (zs : list Z) :
  macros pre !! "STD_TYPES_H" = None →
  (length zs ≤ 5)%nat →
  ∃ s, Std_Types_h pre = Some s ∧
    ∃ o, construct s "Std_VersionInfoType" zs = Some o ∧
      member o "vendorID" = Some (nth 0 zs 0 mod 2 ^ 16) ∧
      member o "moduleID" = Some (nth 1 zs 0 mod 2 ^ 16) ∧
      member o "sw_major_version" = Some (nth 2 zs 0 mod 2 ^ 8) ∧
      member o "sw_minor_version" = Some (nth 3 zs 0 mod 2 ^ 8) ∧
      member o "sw_patch_version" = Some (nth 4 zs 0 mod 2 ^ 8).
Proof.
  intros Hfirst Hlen. first_inclusion pre Hfirst.
  assert (∀ o, typedefs (included o) !! "Std_VersionInfoType" =
               Some (Tstruct [ ("vendorID", Tuint 16); ("moduleID", Tuint 16);
                               ("sw_major_version", Tuint 8);
                               ("sw_minor_version", Tuint 8);
                               ("sw_patch_version", Tuint 8) ])) as Htype
    by by_inclusion.
  destruct zs as [|z0 [|z1 [|z2 [|z3 [|z4 [|z5 zs]]]]]];
    [..|simpl in Hlen; lia];
    (eexists; split;
     [ apply construct_overlay; unfold construct; rewrite Htype; reflexivity
     | by repeat split ]).
Qed.

Lemma Std_VersionInfoType_initialisers_witness :
  macros empty_env !! "STD_TYPES_H" = None ∧
  (length [65566%Z; (-1)%Z; 259%Z] ≤ 5)%nat ∧
  ∃ s, Std_Types_h empty_env = Some s ∧
    ∃ o, construct s "Std_VersionInfoType" [65566; -1; 259] = Some o ∧
      member o "vendorID" = Some 30 ∧
      member o "moduleID" = Some 65535 ∧
      member o "sw_major_version" = Some 3 ∧
      member o "sw_minor_version" = Some 0 ∧
      member o "sw_patch_version" = Some 0.
Proof.
  split; [reflexivity|]. split; [simpl; lia|].
  apply (Std_VersionInfoType_initialisers empty_env [65566; -1; 259]);
    [reflexivity|simpl; lia].
Defined.



(** ** With the status codes of an operating system *)


